(** * The Largest Contentful Paint audit

    A shallow embedding of
    [lighthouse-core/audits/metrics/largest-contentful-paint.js].

    The audit is a class with three static members: the getters [meta] and
    [defaultOptions] and the asynchronous method [audit].  It does no
    arithmetic of its own: it reads its two arguments, calls three
    collaborators that live in other files ([ComputedLCP.request],
    [Audit.computeLogNormalScore] and the message function [str_]) and
    assembles their answers.  The embedding keeps that shape: a member is a
    program over the calls it makes, and a handler gives the calls their
    meaning. *)

From Stdlib Require Import Reals Lra.
From stdpp Require Import gmap strings.

Local Open Scope string_scope.

(** ** JavaScript values *)

(** A JavaScript number, read as a real number of milliseconds. *)
Definition number : Type := R.

(** What a property of the options object holds: reading a property the
    object does not have yields [undefined]. *)
Inductive JsValue : Type :=
| undefined
| JsNumber (x : number).

(** [o.key] on an object used as a record of optional properties. *)
Definition get_property (o : gmap string JsValue) (key : string) : JsValue :=
  match o !! key with
  | Some v => v
  | None => undefined
  end.

(** Modelled from the spec: the error kinds of its error-handling design.
    The audit file raises none of them itself; they are what its
    collaborators throw or reject with. *)
Inductive Error : Type :=
| MissingArtifact
| ComputationError (reason : string)
| InvalidInput.

(** How a call ends: with a value, or with a thrown error.  Awaiting a
    rejected promise throws its reason, so the same type serves for the
    awaited request. *)
Inductive Completion (A : Type) : Type :=
| Normal (a : A)
| Throw (e : Error).
Arguments Normal {A} a.
Arguments Throw {A} e.

(** Modelled from the spec: [Audit.SCORING_MODES] of [audits/audit.js], of
    which the audit names the member [NUMERIC] (a score that is meaningful
    as a continuous value) as opposed to a pass/fail one. *)
Inductive ScoringMode : Type :=
| NUMERIC
| BINARY.

(** [UIStrings.description]. *)
Definition UIStrings_description : string :=
  "The paint time of the largest in-viewport contentful element. [Learn more](https://web.dev/largest-contentful-paint/).".

(** What the rest of the repository provides to this file: the data the
    audit passes on without looking inside, the message objects [str_]
    returns, the state of everything outside the file, and the constants
    [Audit.DEFAULT_PASS], [i18n.UIStrings.largestContentfulPaintMetric] and
    [i18n.UIStrings.seconds]. *)
Class Environment : Type := {
  Trace : Type;
  DevtoolsLog : Type;
  Settings : Type;
  IcuMessage : Type;
  World : Type;
  DEFAULT_PASS : string;
  i18n_largestContentfulPaintMetric : string;
  i18n_seconds : string
}.

Section LargestContentfulPaint.

Context `{Environment}.

(** ** Data model *)

(** [LH.Artifacts], as far as the audit reads it: two objects keyed by
    pass name. *)
Record Artifacts : Type := {
  traces : gmap string Trace;
  devtoolsLogs : gmap string DevtoolsLog
}.

(** [LH.Audit.Context], as far as the audit reads it. *)
Record Context : Type := {
  options : gmap string JsValue;
  settings : Settings
}.

(** The object literal [{trace, devtoolsLog, settings}] built for the
    request.  A pass the artifacts do not have reads as [None]
    (JavaScript's [undefined]). *)
Record MetricComputationData : Type := {
  trace : option Trace;
  devtoolsLog : option DevtoolsLog;
  data_settings : Settings
}.

Record MetricResult : Type := {
  timing : number
}.

(** [LH.Audit.Meta]. *)
Record Meta : Type := {
  id : string;
  title : IcuMessage;
  description : IcuMessage;
  scoreDisplayMode : ScoringMode;
  requiredArtifacts : list string
}.

(** [LH.Audit.Product], as the audit builds it. *)
Record AuditProduct : Type := {
  score : number;
  numericValue : number;
  displayValue : IcuMessage
}.

(** ** Calls to collaborators *)

(** The three functions of other files the audit calls, each with the
    type of its answer. *)
Inductive Call : Type -> Type :=
| ComputedLCP_request (data : MetricComputationData) (context : Context)
    : Call MetricResult
| Audit_computeLogNormalScore
    (measuredValue diminishingReturnsValue medianValue : JsValue)
    : Call number
| str_ (icuMessage : string) (values : option (gmap string JsValue))
    : Call IcuMessage.

(** A program: it returns, or makes a call and goes on with the answer.
    There is no [try]/[catch] in the file, so a program has no way to
    resume after a call that throws. *)
Inductive Prog (A : Type) : Type :=
| Ret (a : A)
| Vis {X : Type} (c : Call X) (k : X -> Prog A).
Arguments Ret {A} a.
Arguments Vis {A X} c k.

Fixpoint bind {A B : Type} (f : A -> Prog B) (p : Prog A) : Prog B :=
  match p with
  | Ret a => f a
  | Vis c k => Vis c (fun x => bind f (k x))
  end.

#[global] Instance Prog_ret : MRet Prog := @Ret.
#[global] Instance Prog_bind : MBind Prog := @bind.

Definition call {X : Type} (c : Call X) : Prog X := Vis c Ret.

(** ** The class members *)

(** [static get meta()].  The properties of the object literal are
    evaluated in source order: the two [str_] calls are all it runs. *)
Definition meta : Prog Meta :=
  title ← call (str_ i18n_largestContentfulPaintMetric None);
  description ← call (str_ UIStrings_description None);
  mret {| id := "largest-contentful-paint";
         title := title;
         description := description;
         scoreDisplayMode := NUMERIC;
         requiredArtifacts := ["traces"; "devtoolsLogs"] |}.

(** [static get defaultOptions()]. *)
Definition defaultOptions : gmap string JsValue :=
  {[ "scorePODR" := JsNumber 2000%R; "scoreMedian" := JsNumber 4000%R ]}.

(** [static async audit(artifacts, context)]. *)
Definition audit (artifacts : Artifacts) (context : Context)
  : Prog AuditProduct :=
  let trace := traces artifacts !! DEFAULT_PASS in
  let devtoolsLog := devtoolsLogs artifacts !! DEFAULT_PASS in
  let metricComputationData :=
    {| trace := trace; devtoolsLog := devtoolsLog;
       data_settings := settings context |} in
  metricResult ← call (ComputedLCP_request metricComputationData context);
  score ← call (Audit_computeLogNormalScore
                   (JsNumber (timing metricResult))
                   (get_property (options context) "scorePODR")
                   (get_property (options context) "scoreMedian"));
  displayValue ← call (str_ i18n_seconds
                          (Some {[ "timeInMs" := JsNumber (timing metricResult) ]}));
  mret {| score := score;
         numericValue := timing metricResult;
         displayValue := displayValue |}.

(** ** Running a program *)

(** What the collaborators do: each call is answered from the current
    state of the world and may change it.  The artifacts and the context a
    collaborator is handed are, as in the spec's data model, immutable for
    the duration of a run: they are values, and all that can change is the
    world. *)
Definition Handler : Type :=
  forall X : Type, Call X -> World -> Completion X * World.

(** A thrown error ends the program where it is thrown. *)
Fixpoint run {A : Type} (h : Handler) (p : Prog A) (w : World)
  : Completion A * World :=
  match p with
  | Ret a => (Normal a, w)
  | Vis c k =>
      match h _ c w with
      | (Normal x, w') => run h (k x) w'
      | (Throw e, w') => (Throw e, w')
      end
  end.

(** A call that was made, whatever the type of its answer. *)
Inductive Event : Type :=
| event {X : Type} (c : Call X).

(** The calls a run makes, in order. *)
Fixpoint calls {A : Type} (h : Handler) (p : Prog A) (w : World)
  : list Event :=
  match p with
  | Ret _ => []
  | Vis c k =>
      event c ::
      match h _ c w with
      | (Normal x, w') => calls h (k x) w'
      | (Throw _, _) => []
      end
  end.

(** ** Reading the record of calls *)

Definition is_str (e : Event) : bool :=
  match e with
  | event c =>
      match c with
      | str_ _ _ => true
      | _ => false
      end
  end.

(** The metric requests among the calls, each with the data and the
    context it was given. *)
Fixpoint metric_requests (log : list Event)
  : list (MetricComputationData * Context) :=
  match log with
  | [] => []
  | event c :: rest =>
      match c with
      | ComputedLCP_request data context =>
          (data, context) :: metric_requests rest
      | _ => metric_requests rest
      end
  end.

(** The argument triples of the scoring calls. *)
Fixpoint scoring_calls (log : list Event)
  : list (JsValue * JsValue * JsValue) :=
  match log with
  | [] => []
  | event c :: rest =>
      match c with
      | Audit_computeLogNormalScore v p m => (v, p, m) :: scoring_calls rest
      | _ => scoring_calls rest
      end
  end.

(** The calibration as the spec resolves it, for comparison with what
    [audit] passes: the option when the options have it, else the default
    of [defaultOptions]. *)
Definition spec_resolved (o : gmap string JsValue) (key : string) : JsValue :=
  match o !! key with
  | Some v => v
  | None => get_property defaultOptions key
  end.

(** What the caller has to pass for the defaults to take part: its own
    options merged over [defaultOptions], by the spec's merge rule (an
    explicit override wins, else the static default). *)
Definition merge_defaults (o : gmap string JsValue) : gmap string JsValue :=
  o ∪ defaultOptions.

(** The calibration invariant on an options object: both points are
    numbers and the point of diminishing returns comes first. *)
Definition calibration_ok (o : gmap string JsValue) : Prop :=
  match get_property o "scorePODR", get_property o "scoreMedian" with
  | JsNumber podr, JsNumber median => (podr < median)%R
  | _, _ => False
  end.

(** The data [audit] hands to the metric request. *)
Definition request_data (artifacts : Artifacts) (context : Context)
  : MetricComputationData :=
  {| trace := traces artifacts !! DEFAULT_PASS;
     devtoolsLog := devtoolsLogs artifacts !! DEFAULT_PASS;
     data_settings := settings context |}.

(** The messages the message function was asked for, each with its
    values. *)
Fixpoint message_calls (log : list Event)
  : list (string * option (gmap string JsValue)) :=
  match log with
  | [] => []
  | event c :: rest =>
      match c with
      | str_ icuMessage values => (icuMessage, values) :: message_calls rest
      | _ => message_calls rest
      end
  end.

End LargestContentfulPaint.

Arguments Ret {_ A} a.
Arguments Vis {_ A X} c k.

(** ** The scoring curve

    [Audit.computeLogNormalScore] is a function of [audits/audit.js],
    another file of the repository.  The spec describes it as the complement
    of a log-normal cumulative distribution whose median is the
    calibration's median.  The standard normal distribution it rests on is
    built here from its density: the integral of [exp (- t * t / 2)] from
    [0] to [x], divided by the mass of the whole line. *)

Section NormalDistribution.

Local Open Scope R_scope.

(** The density of the standard normal distribution, up to its
    normalising constant. *)
Definition gauss (t : R) : R := exp (- (t * t) / 2).

Lemma gauss_continuity : continuity gauss.
Proof.
  unfold gauss.
  apply (continuity_comp (fun t => - (t * t) / 2) exp).
  - reg.
  - apply derivable_continuous, derivable_exp.
Qed.

Lemma gauss_integrable (a b : R) : Riemann_integrable gauss a b.
Proof.
  destruct (Rle_dec a b) as [Hab | Hba].
  - apply continuity_implies_RiemannInt; [exact Hab |].
    intros x _. apply gauss_continuity.
  - apply RiemannInt_P1, continuity_implies_RiemannInt; [lra |].
    intros x _. apply gauss_continuity.
Qed.

(** The mass between [0] and [x]. *)
Definition gauss_mass (x : R) : R := RiemannInt (gauss_integrable 0 x).

Lemma gauss_pos (t : R) : 0 < gauss t.
Proof. apply exp_pos. Qed.

Lemma exp_monotone (x y : R) : x <= y -> exp x <= exp y.
Proof.
  intros [Hlt | ->]; [left; now apply exp_increasing | right; reflexivity].
Qed.

Lemma gauss_mass_0 : gauss_mass 0 = 0.
Proof. apply RiemannInt_P9. Qed.

Lemma gauss_slice_nonneg (a b : R) :
  a <= b -> 0 <= RiemannInt (gauss_integrable a b).
Proof.
  intros Hab.
  destruct (RiemannInt_const_bound (l := 0) (u := 1) (gauss_integrable a b) Hab) as [Hlo _].
  - intros x _. split; [left; apply gauss_pos |].
    unfold gauss. rewrite <- exp_0. apply exp_monotone. nra.
  - lra.
Qed.

Lemma gauss_mass_mono (x y : R) : 0 <= x -> x <= y -> gauss_mass x <= gauss_mass y.
Proof.
  intros Hx Hxy. unfold gauss_mass.
  rewrite <- (RiemannInt_P26 (gauss_integrable 0 x) (gauss_integrable x y)
                (gauss_integrable 0 y)).
  pose proof (gauss_slice_nonneg x y Hxy). lra.
Qed.

Lemma integral_of_derivative (f F : R -> R) (a b : R)
  (pr : Riemann_integrable f a b) :
  a <= b ->
  (forall x, a <= x <= b -> continuity_pt f x) ->
  (forall x, derivable_pt_lim F x (f x)) ->
  RiemannInt pr = F b - F a.
Proof.
  intros Hab Hcont Hder.
  rewrite (RiemannInt_P20 Hab (FTC_P1 Hab Hcont) pr).
  assert (HF : antiderivative f F a b).
  { split; [| exact Hab]. intros x _.
    exists (exist _ (f x) (Hder x)). reflexivity. }
  destruct (antiderivative_Ucte f _ _ a b (RiemannInt_P29 Hab Hcont) HF) as [c Hc].
  rewrite (Hc a), (Hc b) by lra. ring.
Qed.

(** A function that dominates the density and has an antiderivative: it
    bounds the masses, so that they have a least upper bound. *)
Definition gauss_envelope (t : R) : R := exp (/ 2 - t).
Definition gauss_envelope_primitive (t : R) : R := - exp (/ 2 - t).

Lemma gauss_le_envelope (t : R) : gauss t <= gauss_envelope t.
Proof.
  unfold gauss, gauss_envelope. apply exp_monotone.
  pose proof (Rle_0_sqr (t - 1)) as Hsq. unfold Rsqr in Hsq. lra.
Qed.

Lemma gauss_envelope_derivative (t : R) :
  derivable_pt_lim gauss_envelope_primitive t (gauss_envelope t).
Proof.
  unfold gauss_envelope.
  replace (exp (/ 2 - t)) with (- (exp (/ 2 - t) * (0 - 1))) by ring.
  change gauss_envelope_primitive
    with (- comp exp (fct_cte (/ 2) - Ranalysis1.id))%F.
  apply derivable_pt_lim_opp.
  apply derivable_pt_lim_comp.
  - apply derivable_pt_lim_minus;
      [apply derivable_pt_lim_const | apply derivable_pt_lim_id].
  - apply derivable_pt_lim_exp.
Qed.

Lemma gauss_envelope_continuity : continuity gauss_envelope.
Proof.
  apply (continuity_comp (fun t => / 2 - t) exp).
  - reg.
  - apply derivable_continuous, derivable_exp.
Qed.

Lemma gauss_envelope_integrable (a b : R) : a <= b -> Riemann_integrable gauss_envelope a b.
Proof.
  intros Hab. apply continuity_implies_RiemannInt; [exact Hab |].
  intros x _. apply gauss_envelope_continuity.
Qed.

Lemma gauss_mass_bounded (x : R) : 0 <= x -> gauss_mass x <= exp (/ 2).
Proof.
  intros Hx. unfold gauss_mass.
  apply Rle_trans with (RiemannInt (gauss_envelope_integrable 0 x Hx)).
  - apply RiemannInt_P19; [exact Hx |]. intros t _. apply gauss_le_envelope.
  - rewrite (integral_of_derivative gauss_envelope gauss_envelope_primitive); trivial.
    + unfold gauss_envelope_primitive. rewrite Rminus_0_r.
      pose proof (exp_pos (/ 2 - x)). lra.
    + intros t _. apply gauss_envelope_continuity.
    + apply gauss_envelope_derivative.
Qed.

Lemma gauss_mass_1_pos : 0 < gauss_mass 1.
Proof.
  unfold gauss_mass.
  destruct (RiemannInt_const_bound (l := exp (- / 2)) (u := 1)
              (gauss_integrable 0 1)) as [Hlo _]; [lra | |].
  - intros t Ht. split; unfold gauss.
    + apply exp_monotone. nra.
    + rewrite <- exp_0. apply exp_monotone. nra.
  - pose proof (exp_pos (- / 2)). lra.
Qed.

(** The masses of the initial segments of the half line. *)
Definition gauss_masses (m : R) : Prop := exists x, 0 <= x /\ m = gauss_mass x.

Lemma gauss_masses_bound : bound gauss_masses.
Proof.
  exists (exp (/ 2)). intros m (x & Hx & ->). now apply gauss_mass_bounded.
Qed.

Lemma gauss_masses_inhabited : exists m, gauss_masses m.
Proof. exists (gauss_mass 0), 0. split; [lra | reflexivity]. Qed.

(** The mass of the half line: the least upper bound of the masses. *)
Definition gauss_half_mass : R :=
  proj1_sig (completeness gauss_masses gauss_masses_bound gauss_masses_inhabited).

(** The cumulative distribution function of the standard normal
    distribution: one half at the origin, plus or minus the share of the
    mass between the origin and [x] (the density is even, so each half line
    carries [gauss_half_mass]). *)
Definition standard_normal_cdf (x : R) : R :=
  / 2 + (if Rle_dec 0 x then gauss_mass x else - gauss_mass (- x))
        / (2 * gauss_half_mass).

End NormalDistribution.

Section ScoringCurve.

Local Open Scope R_scope.

(** The spec fixes the median of the curve and leaves its spread, which
    the point of diminishing returns determines, to an external
    specification.  The spread is therefore a parameter: [shape podr
    median] is the standard deviation of the logarithm of the timing. *)
Variable shape : number -> number -> number.

(** Modelled from the spec: the log-normal curve behind
    [Audit.computeLogNormalScore], as the share of a log-normal population
    of median [median] that lies above [timing]. *)
Definition lognormal_complement (timing podr median : number) : number :=
  1 - standard_normal_cdf ((ln timing - ln median) / shape podr median).

(** Modelled from the spec: [Audit.computeLogNormalScore], the function of
    [audits/audit.js] the audit computes its score with.  A negative
    timing is an [InvalidInput]; at [0], where the logarithm has no value,
    the score is the curve's maximum; elsewhere it is the complement of
    the log-normal cumulative distribution. *)
Definition ScoringCurve (timing podr median : number) : Completion number :=
  if Rlt_dec timing 0 then Throw InvalidInput
  else if Req_dec_T timing 0 then Normal 1
  else Normal (lognormal_complement timing podr median).

End ScoringCurve.

(** * A concrete environment

    Collaborators simple enough to run, for the examples below: traces and
    logs are lists of event names, a message object is the message with its
    values, and the world counts the calls it has served beside a shared
    object that no collaborator writes. *)

Record SampleWorld : Type := {
  served : nat;
  shared : gmap string JsValue
}.

Definition sample_environment : Environment := {|
  Trace := list string;
  DevtoolsLog := list string;
  Settings := string;
  IcuMessage := string * option (gmap string JsValue);
  World := SampleWorld;
  DEFAULT_PASS := "defaultPass";
  i18n_largestContentfulPaintMetric := "Largest Contentful Paint";
  i18n_seconds := "{timeInMs, number, seconds} s"
|}.

Section Sample.

#[local] Existing Instance sample_environment.

Definition serve (w : SampleWorld) : SampleWorld :=
  {| served := S (served w); shared := shared w |}.

(** The metric engine finds a paint at 2500 ms in any trace it is given and
    none where the trace is missing; the scoring curve answers one half; the
    message function pairs the message with its values. *)
Definition sample_handler : Handler :=
  fun (X : Type) (c : Call X) =>
    match c in Call X return SampleWorld -> Completion X * SampleWorld with
    | ComputedLCP_request data _ => fun w =>
        match trace data with
        | Some _ => (Normal {| timing := 2500%R |}, serve w)
        | None => (Throw (ComputationError "NO_LCP"), serve w)
        end
    | Audit_computeLogNormalScore _ _ _ => fun w => (Normal (/ 2)%R, serve w)
    | str_ icuMessage values => fun w => (Normal (icuMessage, values), serve w)
    end.

(** The same collaborators, with a scoring curve that insists on a
    calibration: it throws when either point is [undefined]. *)
Definition strict_handler : Handler :=
  fun (X : Type) (c : Call X) =>
    match c in Call X return SampleWorld -> Completion X * SampleWorld with
    | Audit_computeLogNormalScore _ (JsNumber _) (JsNumber _) => fun w =>
        (Normal (/ 2)%R, serve w)
    | Audit_computeLogNormalScore _ _ _ => fun w =>
        (Throw InvalidInput, serve w)
    | c' => sample_handler _ c'
    end.

Definition sample_artifacts : Artifacts :=
  {| traces := {[ "defaultPass" := ["largestContentfulPaint::Candidate"] ]};
     devtoolsLogs := {[ "defaultPass" := ["Network.requestWillBeSent"] ]} |}.

Definition empty_artifacts : Artifacts :=
  {| traces := ∅; devtoolsLogs := ∅ |}.

(** A context whose options name no calibration at all, one that names only
    the point of diminishing returns, one that names both, and one with
    other settings and a further option. *)
Definition bare_context : Context :=
  {| options := ∅; settings := "desktop" |}.

Definition partial_context : Context :=
  {| options := {[ "scorePODR" := JsNumber 1800%R ]}; settings := "desktop" |}.

Definition full_context : Context :=
  {| options := merge_defaults ∅; settings := "desktop" |}.

Definition other_context : Context :=
  {| options := <[ "throttling" := JsNumber 4%R ]> (merge_defaults ∅);
     settings := "mobile" |}.

Definition fresh_world : SampleWorld :=
  {| served := 0; shared := defaultOptions |}.

(** A spread that grows with the ratio of the two calibration points. *)
Definition log_ratio_shape (podr median : number) : number :=
  (ln median - ln podr)%R.

(** A metric engine that answers whatever it is handed, a missing trace
    included. *)
Definition lenient_handler : Handler :=
  fun (X : Type) (c : Call X) =>
    match c in Call X return SampleWorld -> Completion X * SampleWorld with
    | ComputedLCP_request _ _ => fun w =>
        (Normal {| timing := 0%R |}, serve w)
    | c' => sample_handler _ c'
    end.

(** A message function that knows the title of the metric and no other
    message. *)
Definition known_messages_handler : Handler :=
  fun (X : Type) (c : Call X) =>
    match c in Call X return SampleWorld -> Completion X * SampleWorld with
    | str_ icuMessage values => fun w =>
        if String.eqb icuMessage "Largest Contentful Paint"
        then (Normal (icuMessage, values), serve w)
        else (Throw (ComputationError "UNKNOWN_MESSAGE"), serve w)
    | c' => sample_handler _ c'
    end.

(** The sample artifacts with the data of a second pass. *)
Definition extended_artifacts : Artifacts :=
  {| traces := <[ "offlinePass" := ["navigationStart"] ]> (traces sample_artifacts);
     devtoolsLogs := <[ "offlinePass" := [] ]> (devtoolsLogs sample_artifacts) |}.

End Sample.

(** * Properties *)

(** ** Running programs *)

Section Programs.

Context `{Environment}.

Lemma run_bind {A B : Type} (h : Handler) (p : Prog A) (f : A -> Prog B)
  (w : World) :
  run h (p ≫= f) w =
  match run h p w with
  | (Normal a, w') => run h (f a) w'
  | (Throw e, w') => (Throw e, w')
  end.
Proof.
  revert w. induction p as [a | X c k IH]; intros w.
  - reflexivity.
  - cbn. destruct (h X c w) as [[x | e] w']; [apply IH | reflexivity].
Qed.

Lemma calls_bind {A B : Type} (h : Handler) (p : Prog A) (f : A -> Prog B)
  (w : World) :
  calls h (p ≫= f) w =
  (calls h p w ++
   match run h p w with
   | (Normal a, w') => calls h (f a) w'
   | (Throw _, _) => []
   end)%list.
Proof.
  revert w. induction p as [a | X c k IH]; intros w.
  - reflexivity.
  - cbn. f_equal.
    destruct (h X c w) as [[x | e] w']; [apply IH | reflexivity].
Qed.

(** A program has no step of its own that writes: whatever every call
    leaves as it was, the whole run leaves as it was, whether it returns
    or throws. *)
Lemma run_frame {A V : Type} (h : Handler) (view : World -> V) (p : Prog A) :
  (forall (X : Type) (c : Call X) (w : World), view (h X c w).2 = view w) ->
  forall w : World, view (run h p w).2 = view w.
Proof.
  intros Hcalls.
  induction p as [a | X c k IH]; intros w; cbn.
  - reflexivity.
  - specialize (Hcalls X c w).
    destruct (h X c w) as [[x | e] w']; cbn in *.
    + now rewrite IH.
    + exact Hcalls.
Qed.

End Programs.

(** ** The audit *)

Section AuditProperties.

Context `{Environment}.

Implicit Types (h : Handler) (artifacts : Artifacts) (context : Context).
Implicit Types (w : World) (e : Error).

(** The audit as the sequence of its three calls. *)
Lemma audit_unfold artifacts context :
  audit artifacts context =
  Vis (ComputedLCP_request (request_data artifacts context) context)
    (fun metricResult =>
       Vis (Audit_computeLogNormalScore
              (JsNumber (timing metricResult))
              (get_property (options context) "scorePODR")
              (get_property (options context) "scoreMedian"))
         (fun score =>
            Vis (str_ i18n_seconds
                   (Some {[ "timeInMs" := JsNumber (timing metricResult) ]}))
              (fun displayValue =>
                 Ret {| score := score;
                        numericValue := timing metricResult;
                        displayValue := displayValue |}))).
Proof. reflexivity. Qed.

(** The first call of every run is the metric request, and no later call
    is one. *)
Lemma audit_metric_requests h artifacts context w :
  metric_requests (calls h (audit artifacts context) w) =
  [(request_data artifacts context, context)].
Proof.
  rewrite audit_unfold. cbn.
  destruct (h _ _ w) as [[r | e] w1]; cbn; [| reflexivity].
  destruct (h _ _ w1) as [[s | e] w2]; cbn; [| reflexivity].
  destruct (h _ _ w2) as [[d | e] w3]; reflexivity.
Qed.

(** C2.  When the metric request fails, the audit fails with the same
    error, in the state the request left: no product is returned, the
    request is the only call made (it is not made again, and neither the
    scoring curve nor the message function is called). *)
Theorem audit_request_failure_propagates h artifacts context w e w1 :
  h _ (ComputedLCP_request (request_data artifacts context) context) w
    = (Throw e, w1) ->
  run h (audit artifacts context) w = (Throw e, w1)
  /\ (forall product w', run h (audit artifacts context) w <> (Normal product, w'))
  /\ calls h (audit artifacts context) w
     = [event (ComputedLCP_request (request_data artifacts context) context)].
Proof.
  intros Hfail.
  assert (Hrun : run h (audit artifacts context) w = (Throw e, w1)).
  { rewrite audit_unfold. cbn. now rewrite Hfail. }
  split; [exact Hrun |]. split.
  - intros product w'. rewrite Hrun. discriminate.
  - rewrite audit_unfold. cbn. now rewrite Hfail.
Qed.

(** After a successful request the scoring curve is called once, with the
    timing and the two properties of the options as they read. *)
Lemma audit_scoring_calls h artifacts context w r w1 :
  h _ (ComputedLCP_request (request_data artifacts context) context) w
    = (Normal r, w1) ->
  scoring_calls (calls h (audit artifacts context) w)
    = [(JsNumber (timing r),
        get_property (options context) "scorePODR",
        get_property (options context) "scoreMedian")].
Proof.
  intros Hreq. rewrite audit_unfold. cbn. rewrite Hreq. cbn.
  destruct (h _ _ w1) as [[s | e] w2]; cbn; [| reflexivity].
  destruct (h _ _ w2) as [[d | e] w3]; reflexivity.
Qed.

(** C1, as the code has it.  When the metric request succeeds, the audit
    calls the scoring curve once, with the timing and with the two
    properties read from [context.options] as they are: a property the
    options omit is passed as [undefined], no default takes its place.
    Where the options have both properties this is the calibration the
    spec describes; and it is the option where given and the default
    otherwise when the caller passes its options merged over
    [defaultOptions]. *)
Theorem audit_calibration_from_options h artifacts context w r w1 :
  h _ (ComputedLCP_request (request_data artifacts context) context) w
    = (Normal r, w1) ->
  scoring_calls (calls h (audit artifacts context) w)
    = [(JsNumber (timing r),
        get_property (options context) "scorePODR",
        get_property (options context) "scoreMedian")]
  /\ (is_Some (options context !! "scorePODR") ->
      is_Some (options context !! "scoreMedian") ->
      scoring_calls (calls h (audit artifacts context) w)
        = [(JsNumber (timing r),
            spec_resolved (options context) "scorePODR",
            spec_resolved (options context) "scoreMedian")])
  /\ (forall user : gmap string JsValue,
      options context = merge_defaults user ->
      scoring_calls (calls h (audit artifacts context) w)
        = [(JsNumber (timing r),
            spec_resolved user "scorePODR",
            spec_resolved user "scoreMedian")]).
Proof.
  intros Hreq.
  pose proof (audit_scoring_calls h artifacts context w r w1 Hreq) as Hcalls.
  split; [exact Hcalls |]. split.
  - intros [p Hp] [m Hm]. rewrite Hcalls.
    unfold spec_resolved, get_property. now rewrite Hp, Hm.
  - intros user Hmerge. rewrite Hcalls, Hmerge.
    unfold spec_resolved, get_property, merge_defaults.
    rewrite !lookup_union.
    destruct (user !! "scorePODR"), (user !! "scoreMedian"); reflexivity.
Qed.


(** C10.  The audit reads and does not write.  Every run makes exactly
    one metric request, for the trace and the devtools log of
    [DEFAULT_PASS] and the settings of the context, with the context the
    audit was given; and whatever part of the world the collaborators
    leave as it was (the artifacts and the context among it) is as it was
    when the run ends, with a product or with an error. *)
Theorem audit_reads_only {V : Type} h (view : World -> V) artifacts context w :
  (forall (X : Type) (c : Call X) (w0 : World), view (h X c w0).2 = view w0) ->
  metric_requests (calls h (audit artifacts context) w)
    = [({| trace := traces artifacts !! DEFAULT_PASS;
           devtoolsLog := devtoolsLogs artifacts !! DEFAULT_PASS;
           data_settings := settings context |}, context)]
  /\ view (run h (audit artifacts context) w).2 = view w.
Proof.
  intros Hcollaborators. split.
  - apply audit_metric_requests.
  - now apply run_frame.
Qed.

(** X1.  When the three collaborators answer, the audit has called them
    once each, in the order of the source: the metric request, the scoring
    curve, the message function. *)
Theorem audit_call_order h artifacts context w r w1 s w2 d w3 :
  h _ (ComputedLCP_request (request_data artifacts context) context) w
    = (Normal r, w1) ->
  h _ (Audit_computeLogNormalScore
         (JsNumber (timing r))
         (get_property (options context) "scorePODR")
         (get_property (options context) "scoreMedian")) w1
    = (Normal s, w2) ->
  h _ (str_ i18n_seconds (Some {[ "timeInMs" := JsNumber (timing r) ]})) w2
    = (Normal d, w3) ->
  calls h (audit artifacts context) w
    = [event (ComputedLCP_request (request_data artifacts context) context);
       event (Audit_computeLogNormalScore
                (JsNumber (timing r))
                (get_property (options context) "scorePODR")
                (get_property (options context) "scoreMedian"));
       event (str_ i18n_seconds (Some {[ "timeInMs" := JsNumber (timing r) ]}))].
Proof.
  intros Hreq Hscore Hstr.
  rewrite audit_unfold. cbn. rewrite Hreq. cbn. rewrite Hscore. cbn.
  now rewrite Hstr.
Qed.

(** X2.  When the metric request succeeds and the scoring curve throws,
    the audit fails with the error of the curve, in the state the curve
    left, and the message function is not called. *)
Theorem audit_scoring_failure_propagates h artifacts context w r w1 e w2 :
  h _ (ComputedLCP_request (request_data artifacts context) context) w
    = (Normal r, w1) ->
  h _ (Audit_computeLogNormalScore
         (JsNumber (timing r))
         (get_property (options context) "scorePODR")
         (get_property (options context) "scoreMedian")) w1
    = (Throw e, w2) ->
  run h (audit artifacts context) w = (Throw e, w2)
  /\ calls h (audit artifacts context) w
     = [event (ComputedLCP_request (request_data artifacts context) context);
        event (Audit_computeLogNormalScore
                 (JsNumber (timing r))
                 (get_property (options context) "scorePODR")
                 (get_property (options context) "scoreMedian"))].
Proof.
  intros Hreq Hscore.
  rewrite audit_unfold. cbn. rewrite Hreq. cbn. rewrite Hscore.
  split; reflexivity.
Qed.

(** X3.  What the scoring curve is asked depends on the timing and on the
    two calibration properties of the options alone: two runs that agree on
    these ask the same, whatever their artifacts, settings, collaborators
    and worlds. *)
Theorem audit_scoring_arguments_agree
  h1 h2 artifacts1 artifacts2 context1 context2 w1 w2 r1 r2 w1' w2' :
  h1 _ (ComputedLCP_request (request_data artifacts1 context1) context1) w1
    = (Normal r1, w1') ->
  h2 _ (ComputedLCP_request (request_data artifacts2 context2) context2) w2
    = (Normal r2, w2') ->
  timing r1 = timing r2 ->
  options context1 !! "scorePODR" = options context2 !! "scorePODR" ->
  options context1 !! "scoreMedian" = options context2 !! "scoreMedian" ->
  scoring_calls (calls h1 (audit artifacts1 context1) w1)
    = scoring_calls (calls h2 (audit artifacts2 context2) w2).
Proof.
  intros Hreq1 Hreq2 Htiming Hpodr Hmedian.
  rewrite (audit_scoring_calls h1 artifacts1 context1 w1 r1 w1' Hreq1).
  rewrite (audit_scoring_calls h2 artifacts2 context2 w2 r2 w2' Hreq2).
  unfold get_property. now rewrite Htiming, Hpodr, Hmedian.
Qed.

End AuditProperties.

(** ** The descriptor *)

Section DescriptorProperties.

Context `{Environment}.

(** Whatever the message function answers, [meta] calls nothing else:
    no metric request and no scoring. *)
Lemma meta_calls_only_messages (h : Handler) (w : World) :
  Forall (fun e => is_str e = true) (calls h meta w).
Proof.
  unfold meta. cbn.
  destruct (h _ _ w) as [[t | e] w1]; cbn; [| repeat constructor].
  destruct (h _ _ w1) as [[d | e] w2]; cbn; repeat constructor.
Qed.

(** C5.  The descriptor is obtained by running the getter [meta] alone:
    its only calls are the two message lookups for the title and the
    description, and when they answer it is the record with the fixed
    identifier, the numeric scoring mode and the two required artifacts
    [traces] and [devtoolsLogs], in any state of the world. *)
Theorem meta_is_static (h : Handler) (w : World)
  (t : IcuMessage) (w1 : World) (d : IcuMessage) (w2 : World) :
  h _ (str_ i18n_largestContentfulPaintMetric None) w = (Normal t, w1) ->
  h _ (str_ UIStrings_description None) w1 = (Normal d, w2) ->
  run h meta w
    = (Normal {| id := "largest-contentful-paint";
                 title := t;
                 description := d;
                 scoreDisplayMode := NUMERIC;
                 requiredArtifacts := ["traces"; "devtoolsLogs"] |}, w2)
  /\ calls h meta w
     = [event (str_ i18n_largestContentfulPaintMetric None);
        event (str_ UIStrings_description None)]
  /\ metric_requests (calls h meta w) = []
  /\ scoring_calls (calls h meta w) = [].
Proof.
  intros Htitle Hdescription.
  unfold meta. cbn. rewrite Htitle. cbn. rewrite Hdescription. cbn.
  repeat split.
Qed.

(** C4.  The default options are exactly [scorePODR = 2000] and
    [scoreMedian = 4000], and they satisfy the calibration invariant: the
    point of diminishing returns is below the median. *)
Theorem defaultOptions_calibration :
  defaultOptions !! "scorePODR" = Some (JsNumber 2000%R)
  /\ defaultOptions !! "scoreMedian" = Some (JsNumber 4000%R)
  /\ dom defaultOptions = {[ "scorePODR"; "scoreMedian" ]}
  /\ calibration_ok defaultOptions.
Proof.
  unfold defaultOptions. split; [| split; [| split]].
  - apply lookup_insert_eq.
  - rewrite lookup_insert_ne by discriminate. apply lookup_singleton_eq.
  - rewrite dom_insert_L, dom_singleton_L. reflexivity.
  - unfold calibration_ok, get_property.
    rewrite lookup_insert_eq, lookup_insert_ne by discriminate.
    rewrite lookup_singleton_eq. lra.
Qed.

End DescriptorProperties.

(** ** The standard normal distribution *)

Section NormalDistributionProperties.

Local Open Scope R_scope.

Lemma gauss_half_mass_lub : is_lub gauss_masses gauss_half_mass.
Proof. unfold gauss_half_mass. apply proj2_sig. Qed.

Lemma gauss_mass_le_half (x : R) : 0 <= x -> gauss_mass x <= gauss_half_mass.
Proof.
  intros Hx. apply gauss_half_mass_lub. now exists x.
Qed.

Lemma gauss_half_mass_pos : 0 < gauss_half_mass.
Proof.
  apply Rlt_le_trans with (gauss_mass 1);
    [apply gauss_mass_1_pos | apply gauss_mass_le_half; lra].
Qed.

Lemma gauss_mass_nonneg (x : R) : 0 <= x -> 0 <= gauss_mass x.
Proof.
  intros Hx. rewrite <- gauss_mass_0. apply gauss_mass_mono; lra.
Qed.

Lemma standard_normal_cdf_0 : standard_normal_cdf 0 = / 2.
Proof.
  unfold standard_normal_cdf.
  destruct (Rle_dec 0 0) as [_ | Hn]; [| lra].
  rewrite gauss_mass_0. unfold Rdiv. ring.
Qed.

Lemma standard_normal_cdf_range (x : R) : 0 <= standard_normal_cdf x <= 1.
Proof.
  pose proof gauss_half_mass_pos as Hh.
  assert (Hside : forall y, 0 <= y -> 0 <= gauss_mass y / (2 * gauss_half_mass) <= / 2).
  { intros y Hy.
    pose proof (gauss_mass_nonneg y Hy). pose proof (gauss_mass_le_half y Hy).
    split.
    - apply Rmult_le_pos; [assumption |].
      left. apply Rinv_0_lt_compat. lra.
    - apply Rmult_le_reg_r with (2 * gauss_half_mass); [lra |].
      unfold Rdiv. rewrite Rmult_assoc, Rinv_l by lra. lra. }
  unfold standard_normal_cdf.
  destruct (Rle_dec 0 x) as [Hx | Hx].
  - specialize (Hside x Hx). lra.
  - specialize (Hside (- x)). unfold Rdiv in *.
    rewrite Ropp_mult_distr_l_reverse. lra.
Qed.

Lemma standard_normal_cdf_mono (x y : R) :
  x <= y -> standard_normal_cdf x <= standard_normal_cdf y.
Proof.
  intros Hxy.
  pose proof gauss_half_mass_pos as Hh.
  assert (Hinv : 0 < / (2 * gauss_half_mass)) by (apply Rinv_0_lt_compat; lra).
  unfold standard_normal_cdf, Rdiv.
  apply Rplus_le_compat_l, Rmult_le_compat_r; [lra |].
  destruct (Rle_dec 0 x) as [Hx | Hx], (Rle_dec 0 y) as [Hy | Hy].
  - now apply gauss_mass_mono.
  - lra.
  - pose proof (gauss_mass_nonneg (- x)). pose proof (gauss_mass_nonneg y). lra.
  - pose proof (gauss_mass_mono (- y) (- x)). lra.
Qed.

(** The distribution is symmetric about the origin. *)
Lemma standard_normal_cdf_symmetry (x : R) :
  standard_normal_cdf (- x) = 1 - standard_normal_cdf x.
Proof.
  unfold standard_normal_cdf.
  destruct (Rle_dec 0 x) as [Hx | Hx], (Rle_dec 0 (- x)) as [Hnx | Hnx].
  - replace x with 0 by lra. rewrite Ropp_0, gauss_mass_0. lra.
  - rewrite Ropp_involutive. lra.
  - lra.
  - lra.
Qed.

End NormalDistributionProperties.

(** ** The scoring curve *)

Section ScoringCurveProperties.

Local Open Scope R_scope.

Variable shape : number -> number -> number.

(** The spread of a log-normal curve is positive. *)
Hypothesis shape_pos :
  forall podr median : number, 0 < podr < median -> 0 < shape podr median.

Lemma ScoringCurve_positive_timing (timing podr median : number) :
  0 < timing ->
  ScoringCurve shape timing podr median
    = Normal (lognormal_complement shape timing podr median).
Proof.
  intros Ht. unfold ScoringCurve.
  destruct (Rlt_dec timing 0) as [Hneg | _]; [lra |].
  destruct (Req_dec_T timing 0) as [Hzero | _]; [lra | reflexivity].
Qed.

Lemma ScoringCurve_zero_timing (podr median : number) :
  ScoringCurve shape 0 podr median = Normal 1.
Proof.
  unfold ScoringCurve.
  destruct (Rlt_dec 0 0) as [Hneg | _]; [lra |].
  destruct (Req_dec_T 0 0) as [_ | Hne]; [reflexivity | lra].
Qed.

Lemma lognormal_complement_range (timing podr median : number) :
  0 <= lognormal_complement shape timing podr median <= 1.
Proof.
  unfold lognormal_complement.
  pose proof (standard_normal_cdf_range
                ((ln timing - ln median) / shape podr median)).
  lra.
Qed.

Lemma lognormal_complement_antitone (t1 t2 podr median : number) :
  0 < podr < median -> 0 < t1 -> t1 <= t2 ->
  lognormal_complement shape t2 podr median
    <= lognormal_complement shape t1 podr median.
Proof.
  intros Hcal Ht1 Hle. unfold lognormal_complement.
  apply Rplus_le_compat_l, Ropp_le_contravar, standard_normal_cdf_mono.
  apply Rmult_le_compat_r.
  - left. apply Rinv_0_lt_compat. now apply shape_pos.
  - apply Rplus_le_compat_r.
    destruct Hle as [Hlt | ->]; [left; now apply ln_increasing | right; reflexivity].
Qed.

(** Every non-negative timing has a score, and it lies in [0, 1]. *)
Lemma ScoringCurve_range (timing podr median : number) :
  0 <= timing ->
  exists s : number,
    ScoringCurve shape timing podr median = Normal s /\ 0 <= s <= 1.
Proof.
  intros [Hpos | <-].
  - eexists. split; [now apply ScoringCurve_positive_timing |].
    apply lognormal_complement_range.
  - exists 1. split; [apply ScoringCurve_zero_timing | lra].
Qed.

(** C6.  For a calibration [0 < podr < median], every non-negative timing
    has a score in [0, 1], and a larger timing never has a larger
    score. *)
Theorem ScoringCurve_monotone (podr median : number) :
  0 < podr < median ->
  (forall timing : number, 0 <= timing ->
     exists s : number,
       ScoringCurve shape timing podr median = Normal s /\ 0 <= s <= 1)
  /\ (forall timing1 timing2 s1 s2 : number,
        0 <= timing1 -> timing1 < timing2 ->
        ScoringCurve shape timing1 podr median = Normal s1 ->
        ScoringCurve shape timing2 podr median = Normal s2 ->
        s2 <= s1).
Proof.
  intros Hcal. split.
  - intros timing Ht. now apply ScoringCurve_range.
  - intros timing1 timing2 s1 s2 [Hpos | <-] Hlt.
    + rewrite !ScoringCurve_positive_timing by lra.
      intros [= <-] [= <-].
      apply lognormal_complement_antitone; [assumption | assumption | lra].
    + rewrite ScoringCurve_zero_timing, ScoringCurve_positive_timing by lra.
      intros [= <-] [= <-]. apply lognormal_complement_range.
Qed.

(** C7.  For a calibration [0 < podr < median], the score of the median
    timing is one half, the score of the timing [0] is [1], and no timing
    has a larger score. *)
Theorem ScoringCurve_median_and_zero (podr median : number) :
  0 < podr < median ->
  ScoringCurve shape median podr median = Normal (/ 2)
  /\ ScoringCurve shape 0 podr median = Normal 1
  /\ (forall timing s : number,
        ScoringCurve shape timing podr median = Normal s -> s <= 1).
Proof.
  intros Hcal. split; [| split].
  - rewrite ScoringCurve_positive_timing by lra.
    unfold lognormal_complement.
    replace ((ln median - ln median) / shape podr median) with 0
      by (unfold Rdiv; ring).
    rewrite standard_normal_cdf_0. f_equal. lra.
  - apply ScoringCurve_zero_timing.
  - intros timing s. unfold ScoringCurve.
    destruct (Rlt_dec timing 0); [discriminate |].
    destruct (Req_dec_T timing 0); intros [= <-]; [lra |].
    apply lognormal_complement_range.
Qed.

(** C8.  A negative timing has no score: the curve throws
    [InvalidInput], whatever the calibration. *)
Theorem ScoringCurve_negative_timing (timing podr median : number) :
  timing < 0 ->
  ScoringCurve shape timing podr median = Throw InvalidInput
  /\ (forall s : number, ScoringCurve shape timing podr median <> Normal s).
Proof.
  intros Hneg.
  assert (Hthrow : ScoringCurve shape timing podr median = Throw InvalidInput).
  { unfold ScoringCurve. destruct (Rlt_dec timing 0); [reflexivity | lra]. }
  split; [exact Hthrow |].
  intros s. rewrite Hthrow. discriminate.
Qed.

End ScoringCurveProperties.

(** ** Failures, edges and what the members never do *)

Section Behaviour.

Context `{Environment}.

Implicit Types (h : Handler) (artifacts : Artifacts) (context : Context).
Implicit Types (w : World) (e : Error).

(** Artifacts that agree on the entries of [DEFAULT_PASS] give the same
    program. *)
Lemma audit_agrees_on_default_pass artifacts1 artifacts2 context :
  traces artifacts1 !! DEFAULT_PASS = traces artifacts2 !! DEFAULT_PASS ->
  devtoolsLogs artifacts1 !! DEFAULT_PASS
    = devtoolsLogs artifacts2 !! DEFAULT_PASS ->
  audit artifacts1 context = audit artifacts2 context.
Proof.
  intros Htraces Hlogs. rewrite !audit_unfold. unfold request_data.
  now rewrite Htraces, Hlogs.
Qed.

(** X4.  When the metric request and the scoring curve return and the
    message function throws, the audit fails with the error of the message
    function, in the state it left, after the three calls: the score that
    was computed is not returned. *)
Theorem audit_message_failure_propagates h artifacts context w r w1 s w2 e w3 :
  h _ (ComputedLCP_request (request_data artifacts context) context) w
    = (Normal r, w1) ->
  h _ (Audit_computeLogNormalScore
         (JsNumber (timing r))
         (get_property (options context) "scorePODR")
         (get_property (options context) "scoreMedian")) w1
    = (Normal s, w2) ->
  h _ (str_ i18n_seconds (Some {[ "timeInMs" := JsNumber (timing r) ]})) w2
    = (Throw e, w3) ->
  run h (audit artifacts context) w = (Throw e, w3)
  /\ length (calls h (audit artifacts context) w) = 3
  /\ message_calls (calls h (audit artifacts context) w)
     = [(i18n_seconds, Some {[ "timeInMs" := JsNumber (timing r) ]})].
Proof.
  intros Hreq Hscore Hstr.
  rewrite audit_unfold. cbn. rewrite Hreq. cbn. rewrite Hscore. cbn.
  rewrite Hstr. repeat split.
Qed.

(** X5.  The audit does not check that the artifacts have the default
    pass.  When they have neither a trace nor a devtools log for it, the
    request is still made, with both missing, and the outcome is the
    collaborators': when they answer, the audit returns a product. *)
Theorem audit_missing_pass_reaches_request
  h artifacts context w r w1 s w2 d w3 :
  traces artifacts !! DEFAULT_PASS = None ->
  devtoolsLogs artifacts !! DEFAULT_PASS = None ->
  h _ (ComputedLCP_request
         {| trace := None; devtoolsLog := None;
            data_settings := settings context |} context) w
    = (Normal r, w1) ->
  h _ (Audit_computeLogNormalScore
         (JsNumber (timing r))
         (get_property (options context) "scorePODR")
         (get_property (options context) "scoreMedian")) w1
    = (Normal s, w2) ->
  h _ (str_ i18n_seconds (Some {[ "timeInMs" := JsNumber (timing r) ]})) w2
    = (Normal d, w3) ->
  metric_requests (calls h (audit artifacts context) w)
    = [({| trace := None; devtoolsLog := None;
           data_settings := settings context |}, context)]
  /\ run h (audit artifacts context) w
     = (Normal {| score := s; numericValue := timing r; displayValue := d |},
        w3).
Proof.
  intros Htrace Hlog Hreq Hscore Hstr.
  assert (Hdata : request_data artifacts context
                  = {| trace := None; devtoolsLog := None;
                       data_settings := settings context |}).
  { unfold request_data. now rewrite Htrace, Hlog. }
  split.
  - rewrite audit_metric_requests, Hdata. reflexivity.
  - rewrite audit_unfold, Hdata. cbn. rewrite Hreq. cbn. rewrite Hscore. cbn.
    now rewrite Hstr.
Qed.

(** X6.  The audit reads the entries of the default pass and no other:
    adding, replacing or removing the trace and the devtools log of any
    other pass leaves the program of the audit, and with it every run, as
    it was. *)
Theorem audit_ignores_other_passes
  artifacts context (pass : string) (t : Trace) (l : DevtoolsLog) :
  pass <> DEFAULT_PASS ->
  audit {| traces := <[ pass := t ]> (traces artifacts);
           devtoolsLogs := <[ pass := l ]> (devtoolsLogs artifacts) |} context
    = audit artifacts context
  /\ audit {| traces := delete pass (traces artifacts);
              devtoolsLogs := delete pass (devtoolsLogs artifacts) |} context
     = audit artifacts context.
Proof.
  intros Hother. split; apply audit_agrees_on_default_pass; cbn.
  - now apply lookup_insert_ne.
  - now apply lookup_insert_ne.
  - now apply lookup_delete_ne.
  - now apply lookup_delete_ne.
Qed.

(** X7.  Whatever the collaborators answer, a run of the audit makes at
    most three calls, calls the scoring curve at most once and the message
    function at most once, and asks the message function for no message
    but the seconds message. *)
Theorem audit_call_budget h artifacts context w :
  length (calls h (audit artifacts context) w) <= 3
  /\ length (scoring_calls (calls h (audit artifacts context) w)) <= 1
  /\ length (message_calls (calls h (audit artifacts context) w)) <= 1
  /\ Forall (fun m => m.1 = i18n_seconds)
       (message_calls (calls h (audit artifacts context) w)).
Proof.
  rewrite audit_unfold. cbn.
  destruct (h _ _ w) as [[r | e] w1]; cbn.
  - destruct (h _ _ w1) as [[s | e] w2]; cbn.
    + destruct (h _ _ w2) as [[d | e] w3]; cbn;
        (repeat split; [lia | lia | lia | repeat constructor]).
    + repeat split; [lia | lia | lia | constructor].
  - repeat split; [lia | lia | lia | constructor].
Qed.

(** X8.  In a product the audit returns, [numericValue] is the very
    number the scoring curve was given as the measured value and the
    message function was given as [timeInMs]: the three uses of the timing
    agree, and the product comes after exactly these three calls. *)
Theorem audit_product_consistent h artifacts context w product w' :
  run h (audit artifacts context) w = (Normal product, w') ->
  calls h (audit artifacts context) w
    = [event (ComputedLCP_request (request_data artifacts context) context);
       event (Audit_computeLogNormalScore
                (JsNumber (numericValue product))
                (get_property (options context) "scorePODR")
                (get_property (options context) "scoreMedian"));
       event (str_ i18n_seconds
                (Some {[ "timeInMs" := JsNumber (numericValue product) ]}))].
Proof.
  rewrite audit_unfold. cbn.
  destruct (h _ _ w) as [[r | e] w1]; cbn; [| discriminate].
  destruct (h _ _ w1) as [[s | e] w2]; cbn; [| discriminate].
  destruct (h _ _ w2) as [[d | e] w3]; cbn; [| discriminate].
  intros [= <- <-]. reflexivity.
Qed.

(** X9.  The audit raises no error of its own and changes none: a run
    fails exactly when one of its three calls throws in the state the run
    has reached (the request in the initial state, the scoring curve in the
    state the request left, the message function in the state the scoring
    curve left), and it then ends with the error and in the state of that
    call. *)
Theorem audit_fails_iff h artifacts context w e w' :
  run h (audit artifacts context) w = (Throw e, w')
  <->
  h _ (ComputedLCP_request (request_data artifacts context) context) w
    = (Throw e, w')
  \/ (exists (r : MetricResult) (w1 : World),
        h _ (ComputedLCP_request (request_data artifacts context) context) w
          = (Normal r, w1)
        /\ h _ (Audit_computeLogNormalScore
                  (JsNumber (timing r))
                  (get_property (options context) "scorePODR")
                  (get_property (options context) "scoreMedian")) w1
           = (Throw e, w'))
  \/ (exists (r : MetricResult) (w1 : World) (s : number) (w2 : World),
        h _ (ComputedLCP_request (request_data artifacts context) context) w
          = (Normal r, w1)
        /\ h _ (Audit_computeLogNormalScore
                  (JsNumber (timing r))
                  (get_property (options context) "scorePODR")
                  (get_property (options context) "scoreMedian")) w1
           = (Normal s, w2)
        /\ h _ (str_ i18n_seconds
                  (Some {[ "timeInMs" := JsNumber (timing r) ]})) w2
           = (Throw e, w')).
Proof.
  rewrite audit_unfold. cbn.
  destruct (h _ (ComputedLCP_request _ _) w) as [[r | e0] w1] eqn:Hreq; cbn.
  - destruct (h _ (Audit_computeLogNormalScore _ _ _) w1)
      as [[s | e1] w2] eqn:Hscore; cbn.
    + destruct (h _ (str_ _ _) w2) as [[d | e2] w3] eqn:Hstr; cbn.
      * split; [discriminate |].
        intros [Habsurd | [(r' & w1' & Hsame & Habsurd)
                          | (r' & w1' & s' & w2' & Hsame & Hsame' & Habsurd)]].
        -- discriminate.
        -- injection Hsame as <- <-. congruence.
        -- injection Hsame as <- <-. rewrite Hscore in Hsame'.
           injection Hsame' as <- <-. congruence.
      * split.
        -- intros Hrun. injection Hrun as <- <-.
           right. right. exists r, w1, s, w2. auto.
        -- intros [Habsurd | [(r' & w1' & Hsame & Habsurd)
                             | (r' & w1' & s' & w2' & Hsame & Hsame' & Hthrow)]].
           ++ discriminate.
           ++ injection Hsame as <- <-. congruence.
           ++ injection Hsame as <- <-. rewrite Hscore in Hsame'.
              injection Hsame' as <- <-. rewrite Hstr in Hthrow.
              injection Hthrow as <- <-. reflexivity.
    + split.
      * intros Hrun. injection Hrun as <- <-. right. left. exists r, w1. auto.
      * intros [Habsurd | [(r' & w1' & Hsame & Hthrow)
                          | (r' & w1' & s' & w2' & Hsame & Habsurd & _)]].
        -- discriminate.
        -- injection Hsame as <- <-. rewrite Hscore in Hthrow.
           injection Hthrow as <- <-. reflexivity.
        -- injection Hsame as <- <-. congruence.
  - split.
    + intros Hrun. injection Hrun as <- <-. left. reflexivity.
    + intros [Hthrow | [(r' & w1' & Habsurd & _)
                       | (r' & w1' & s' & w2' & Habsurd & _)]].
      * injection Hthrow as <- <-. reflexivity.
      * discriminate.
      * discriminate.
Qed.

(** X10.  The getter [meta] returns a descriptor exactly when both message
    lookups return, and any descriptor it returns has the identifier, the
    scoring mode and the required artifacts of the source, with the answers
    of the lookups as title and description. *)
Theorem meta_returns_iff h w (m : Meta) w2 :
  run h meta w = (Normal m, w2)
  <->
  exists (t : IcuMessage) (w1 : World) (d : IcuMessage),
    h _ (str_ i18n_largestContentfulPaintMetric None) w = (Normal t, w1)
    /\ h _ (str_ UIStrings_description None) w1 = (Normal d, w2)
    /\ m = {| id := "largest-contentful-paint";
              title := t;
              description := d;
              scoreDisplayMode := NUMERIC;
              requiredArtifacts := ["traces"; "devtoolsLogs"] |}.
Proof.
  unfold meta. cbn. split.
  - destruct (h _ (str_ i18n_largestContentfulPaintMetric None) w)
      as [[t | e] w1]; [| discriminate].
    destruct (h _ (str_ UIStrings_description None) w1)
      as [[d | e] w2'] eqn:Hdescription; [| discriminate].
    intros [= <- <-]. exists t, w1, d. rewrite Hdescription. auto.
  - intros (t & w1 & d & -> & -> & ->). reflexivity.
Qed.

(** X11.  The getter [meta] fails exactly when one of its two message
    lookups throws, with the error and in the state of that lookup; when
    the title lookup throws, the description lookup is not made. *)
Theorem meta_fails_iff h w e w' :
  run h meta w = (Throw e, w')
  <->
  (h _ (str_ i18n_largestContentfulPaintMetric None) w = (Throw e, w')
   /\ calls h meta w = [event (str_ i18n_largestContentfulPaintMetric None)])
  \/ (exists (t : IcuMessage) (w1 : World),
        h _ (str_ i18n_largestContentfulPaintMetric None) w = (Normal t, w1)
        /\ h _ (str_ UIStrings_description None) w1 = (Throw e, w')).
Proof.
  unfold meta. cbn.
  destruct (h _ (str_ i18n_largestContentfulPaintMetric None) w)
    as [[t | e1] w1] eqn:Htitle; cbn.
  - destruct (h _ (str_ UIStrings_description None) w1)
      as [[d | e2] w2] eqn:Hdescription; cbn.
    + split; [discriminate |].
      intros [[Habsurd _] | (t' & w1' & Hsame & Habsurd)]; [discriminate |].
      injection Hsame as <- <-. congruence.
    + split.
      * intros Hrun. injection Hrun as <- <-. right. exists t, w1. auto.
      * intros [[Habsurd _] | (t' & w1' & Hsame & Hthrow)]; [discriminate |].
        injection Hsame as <- <-. congruence.
  - split.
    + intros Hrun. injection Hrun as <- <-. left. auto.
    + intros [[Hthrow _] | (t' & w1' & Habsurd & _)]; [| discriminate].
      injection Hthrow as <- <-. reflexivity.
Qed.

End Behaviour.

(** * Examples *)

Section Examples.

#[local] Existing Instance sample_environment.

Lemma log_ratio_shape_pos (podr median : number) :
  (0 < podr < median)%R -> (0 < log_ratio_shape podr median)%R.
Proof.
  intros [Hpodr Hlt]. unfold log_ratio_shape.
  apply Rlt_0_minus. now apply ln_increasing.
Qed.


(** With options that name no calibration and a request that succeeds, the
    scoring curve is called with [undefined] for both points, where the
    calibration resolved as the spec has it is [(2000, 4000)]. *)
Lemma audit_omitted_options_counterexample :
  sample_handler _
    (ComputedLCP_request (request_data sample_artifacts bare_context) bare_context)
    fresh_world
    = (Normal {| timing := 2500%R |}, serve fresh_world)
  /\ scoring_calls (calls sample_handler (audit sample_artifacts bare_context) fresh_world)
     = [(JsNumber 2500%R, undefined, undefined)]
  /\ (spec_resolved (options bare_context) "scorePODR",
      spec_resolved (options bare_context) "scoreMedian")
     = (JsNumber 2000%R, JsNumber 4000%R)
  /\ scoring_calls (calls sample_handler (audit sample_artifacts bare_context) fresh_world)
     <> [(JsNumber 2500%R,
          spec_resolved (options bare_context) "scorePODR",
          spec_resolved (options bare_context) "scoreMedian")].
Proof.
  assert (Hcalls :
    scoring_calls (calls sample_handler (audit sample_artifacts bare_context) fresh_world)
    = [(JsNumber 2500%R, undefined, undefined)]) by reflexivity.
  assert (Hspec :
    (spec_resolved (options bare_context) "scorePODR",
     spec_resolved (options bare_context) "scoreMedian")
    = (JsNumber 2000%R, JsNumber 4000%R)) by reflexivity.
  assert (Hpodr : spec_resolved (options bare_context) "scorePODR"
                  = JsNumber 2000%R) by reflexivity.
  split; [reflexivity |]. split; [exact Hcalls |]. split; [exact Hspec |].
  rewrite Hcalls, Hpodr. intros Hsame.
  injection Hsame as Hundefined _. discriminate Hundefined.
Qed.

(** With options that name only the point of diminishing returns, the
    median reaches the scoring curve as [undefined]. *)
Lemma audit_calibration_from_options_witness :
  sample_handler _
    (ComputedLCP_request (request_data sample_artifacts partial_context) partial_context)
    fresh_world
    = (Normal {| timing := 2500%R |}, serve fresh_world)
  /\ scoring_calls (calls sample_handler (audit sample_artifacts partial_context) fresh_world)
     = [(JsNumber 2500%R, JsNumber 1800%R, undefined)].
Proof.
  split; [reflexivity |].
  exact (proj1 (audit_calibration_from_options sample_handler sample_artifacts
                  partial_context fresh_world {| timing := 2500%R |}
                  (serve fresh_world) eq_refl)).
Defined.

(** Without a trace for the default pass the sample engine rejects, and so
    does the audit, after one call. *)
Lemma audit_request_failure_propagates_witness :
  sample_handler _
    (ComputedLCP_request (request_data empty_artifacts full_context) full_context)
    fresh_world
    = (Throw (ComputationError "NO_LCP"), serve fresh_world)
  /\ run sample_handler (audit empty_artifacts full_context) fresh_world
     = (Throw (ComputationError "NO_LCP"), serve fresh_world)
  /\ length (calls sample_handler (audit empty_artifacts full_context) fresh_world) = 1.
Proof.
  split; [reflexivity |].
  destruct (audit_request_failure_propagates sample_handler empty_artifacts
              full_context fresh_world (ComputationError "NO_LCP")
              (serve fresh_world) eq_refl) as (Hrun & _ & Hcalls).
  split; [exact Hrun |]. rewrite Hcalls. reflexivity.
Defined.


(** The sample run calls the three collaborators in order. *)
Lemma audit_call_order_witness :
  length (calls sample_handler (audit sample_artifacts full_context) fresh_world) = 3.
Proof.
  rewrite (audit_call_order sample_handler sample_artifacts full_context
             fresh_world {| timing := 2500%R |} (serve fresh_world)
             (/ 2)%R (serve (serve fresh_world))
             ("{timeInMs, number, seconds} s",
              Some {[ "timeInMs" := JsNumber 2500%R ]})
             (serve (serve (serve fresh_world)))
             eq_refl eq_refl eq_refl).
  reflexivity.
Defined.

(** Under the strict curve, options that name no calibration make the
    audit fail where the curve is called. *)
Lemma audit_scoring_failure_propagates_witness :
  strict_handler _
    (ComputedLCP_request (request_data sample_artifacts bare_context) bare_context)
    fresh_world
    = (Normal {| timing := 2500%R |}, serve fresh_world)
  /\ strict_handler _
       (Audit_computeLogNormalScore (JsNumber 2500%R) undefined undefined)
       (serve fresh_world)
     = (Throw InvalidInput, serve (serve fresh_world))
  /\ run strict_handler (audit sample_artifacts bare_context) fresh_world
     = (Throw InvalidInput, serve (serve fresh_world)).
Proof.
  split; [reflexivity |]. split; [reflexivity |].
  exact (proj1 (audit_scoring_failure_propagates strict_handler sample_artifacts
                  bare_context fresh_world {| timing := 2500%R |}
                  (serve fresh_world) InvalidInput (serve (serve fresh_world))
                  eq_refl eq_refl)).
Defined.

(** Two sample runs that differ in their collaborators, in their world and
    in an option the audit does not read ask the curve the same. *)
Lemma audit_scoring_arguments_agree_witness :
  scoring_calls (calls sample_handler (audit sample_artifacts full_context) fresh_world)
  = scoring_calls (calls strict_handler (audit sample_artifacts other_context)
                     (serve fresh_world)).
Proof.
  apply (audit_scoring_arguments_agree sample_handler strict_handler
           sample_artifacts sample_artifacts full_context other_context
           fresh_world (serve fresh_world)
           {| timing := 2500%R |} {| timing := 2500%R |}
           (serve fresh_world) (serve (serve fresh_world)));
    reflexivity.
Defined.

(** The sample collaborators count their calls and leave the shared object
    alone, and so does a run of the audit. *)
Lemma audit_reads_only_witness :
  (forall (X : Type) (c : Call X) (w0 : World),
     shared (sample_handler X c w0).2 = shared w0)
  /\ metric_requests (calls sample_handler (audit sample_artifacts full_context) fresh_world)
     = [({| trace := Some ["largestContentfulPaint::Candidate"];
            devtoolsLog := Some ["Network.requestWillBeSent"];
            data_settings := "desktop" |}, full_context)]
  /\ shared (run sample_handler (audit sample_artifacts full_context) fresh_world).2
     = shared fresh_world.
Proof.
  assert (Hshared : forall (X : Type) (c : Call X) (w0 : World),
            shared (sample_handler X c w0).2 = shared w0).
  { intros X c w0. destruct c as [data context | v p m | message values]; cbn.
    - destruct (trace data); reflexivity.
    - reflexivity.
    - reflexivity. }
  split; [exact Hshared |].
  exact (audit_reads_only sample_handler shared sample_artifacts full_context
           fresh_world Hshared).
Defined.

(** The sample message function answers both lookups, and the descriptor
    follows. *)
Lemma meta_is_static_witness :
  sample_handler _ (str_ i18n_largestContentfulPaintMetric None) fresh_world
    = (Normal ("Largest Contentful Paint", None), serve fresh_world)
  /\ sample_handler _ (str_ UIStrings_description None) (serve fresh_world)
    = (Normal (UIStrings_description, None), serve (serve fresh_world))
  /\ run sample_handler meta fresh_world
     = (Normal {| id := "largest-contentful-paint";
                  title := ("Largest Contentful Paint", None);
                  description := (UIStrings_description, None);
                  scoreDisplayMode := NUMERIC;
                  requiredArtifacts := ["traces"; "devtoolsLogs"] |},
        serve (serve fresh_world)).
Proof.
  split; [reflexivity |]. split; [reflexivity |].
  exact (proj1 (meta_is_static sample_handler fresh_world
                  ("Largest Contentful Paint", None) (serve fresh_world)
                  (UIStrings_description, None) (serve (serve fresh_world))
                  eq_refl eq_refl)).
Defined.

(** The reference calibration, with the sample spread: the timings 2000
    and 4000 both have a score, and the later one does not score higher. *)
Lemma ScoringCurve_monotone_witness :
  (0 < 2000 < 4000)%R
  /\ exists s1 s2 : number,
       ScoringCurve log_ratio_shape 2000%R 2000%R 4000%R = Normal s1
       /\ ScoringCurve log_ratio_shape 4000%R 2000%R 4000%R = Normal s2
       /\ (s2 <= s1)%R /\ (0 <= s1 <= 1)%R /\ (0 <= s2 <= 1)%R.
Proof.
  assert (Hcal : (0 < 2000 < 4000)%R) by lra.
  split; [exact Hcal |].
  destruct (ScoringCurve_monotone log_ratio_shape log_ratio_shape_pos
              2000%R 4000%R Hcal) as [Hrange Hmono].
  destruct (Hrange 2000%R) as (s1 & Hs1 & Hb1); [lra |].
  destruct (Hrange 4000%R) as (s2 & Hs2 & Hb2); [lra |].
  exists s1, s2. repeat split; try assumption; try apply Hb1; try apply Hb2.
  apply (Hmono 2000%R 4000%R); [lra | lra | exact Hs1 | exact Hs2].
Defined.

Lemma ScoringCurve_median_and_zero_witness :
  (0 < 2000 < 4000)%R
  /\ ScoringCurve log_ratio_shape 4000%R 2000%R 4000%R = Normal (/ 2)%R
  /\ ScoringCurve log_ratio_shape 0%R 2000%R 4000%R = Normal 1%R.
Proof.
  assert (Hcal : (0 < 2000 < 4000)%R) by lra.
  destruct (ScoringCurve_median_and_zero log_ratio_shape 2000%R 4000%R Hcal)
    as (Hmedian & Hzero & _).
  split; [exact Hcal |]. split; [exact Hmedian | exact Hzero].
Defined.

Lemma ScoringCurve_negative_timing_witness :
  (-1 < 0)%R
  /\ ScoringCurve log_ratio_shape (-1)%R 2000%R 4000%R = Throw InvalidInput.
Proof.
  assert (Hneg : (-1 < 0)%R) by lra.
  split; [exact Hneg |].
  exact (proj1 (ScoringCurve_negative_timing log_ratio_shape (-1)%R 2000%R
                  4000%R Hneg)).
Defined.

End Examples.

Section BehaviourExamples.

#[local] Existing Instance sample_environment.

(** A message function that does not know the seconds message fails the
    sample audit after the score was computed. *)
Lemma audit_message_failure_propagates_witness :
  known_messages_handler _
    (str_ i18n_seconds (Some {[ "timeInMs" := JsNumber 2500%R ]}))
    (serve (serve fresh_world))
    = (Throw (ComputationError "UNKNOWN_MESSAGE"), serve (serve (serve fresh_world)))
  /\ run known_messages_handler (audit sample_artifacts full_context) fresh_world
     = (Throw (ComputationError "UNKNOWN_MESSAGE"),
        serve (serve (serve fresh_world))).
Proof.
  split; [reflexivity |].
  exact (proj1 (audit_message_failure_propagates known_messages_handler
                  sample_artifacts full_context fresh_world
                  {| timing := 2500%R |} (serve fresh_world)
                  (/ 2)%R (serve (serve fresh_world))
                  (ComputationError "UNKNOWN_MESSAGE")
                  (serve (serve (serve fresh_world)))
                  eq_refl eq_refl eq_refl)).
Defined.

(** Without any pass in the artifacts, an engine that answers all the same
    lets the audit return a product. *)
Lemma audit_missing_pass_reaches_request_witness :
  traces empty_artifacts !! DEFAULT_PASS = None
  /\ devtoolsLogs empty_artifacts !! DEFAULT_PASS = None
  /\ run lenient_handler (audit empty_artifacts full_context) fresh_world
     = (Normal {| score := (/ 2)%R;
                  numericValue := 0%R;
                  displayValue :=
                    ("{timeInMs, number, seconds} s",
                     Some {[ "timeInMs" := JsNumber 0%R ]}) |},
        serve (serve (serve fresh_world))).
Proof.
  split; [reflexivity |]. split; [reflexivity |].
  exact (proj2 (audit_missing_pass_reaches_request lenient_handler
                  empty_artifacts full_context fresh_world
                  {| timing := 0%R |} (serve fresh_world)
                  (/ 2)%R (serve (serve fresh_world))
                  ("{timeInMs, number, seconds} s",
                   Some {[ "timeInMs" := JsNumber 0%R ]})
                  (serve (serve (serve fresh_world)))
                  eq_refl eq_refl eq_refl eq_refl eq_refl)).
Defined.

(** The data of an offline pass makes no difference to the sample audit. *)
Lemma audit_ignores_other_passes_witness :
  "offlinePass" <> DEFAULT_PASS
  /\ audit extended_artifacts full_context = audit sample_artifacts full_context.
Proof.
  assert (Hother : "offlinePass" <> DEFAULT_PASS) by discriminate.
  split; [exact Hother |].
  exact (proj1 (audit_ignores_other_passes sample_artifacts full_context
                  "offlinePass" ["navigationStart"] [] Hother)).
Defined.

(** The product of the sample run and the calls behind it. *)
Lemma audit_product_consistent_witness :
  run sample_handler (audit sample_artifacts full_context) fresh_world
    = (Normal {| score := (/ 2)%R;
                 numericValue := 2500%R;
                 displayValue :=
                   ("{timeInMs, number, seconds} s",
                    Some {[ "timeInMs" := JsNumber 2500%R ]}) |},
       serve (serve (serve fresh_world)))
  /\ scoring_calls (calls sample_handler (audit sample_artifacts full_context) fresh_world)
     = [(JsNumber 2500%R, JsNumber 2000%R, JsNumber 4000%R)].
Proof.
  split; [reflexivity |].
  rewrite (audit_product_consistent sample_handler sample_artifacts full_context
             fresh_world _ _ eq_refl).
  reflexivity.
Defined.

(** Under the strict curve and options that name no calibration, the
    sample audit fails at its second call, in the state the request left. *)
Lemma audit_fails_iff_witness :
  run strict_handler (audit sample_artifacts bare_context) fresh_world
    = (Throw InvalidInput, serve (serve fresh_world)).
Proof.
  apply (audit_fails_iff strict_handler sample_artifacts bare_context
           fresh_world InvalidInput (serve (serve fresh_world))).
  right. left. exists {| timing := 2500%R |}, (serve fresh_world).
  split; reflexivity.
Defined.

(** A message function that knows the title and not the description fails
    the getter at its second lookup. *)
Lemma meta_fails_iff_witness :
  run known_messages_handler meta fresh_world
    = (Throw (ComputationError "UNKNOWN_MESSAGE"), serve (serve fresh_world)).
Proof.
  apply (meta_fails_iff known_messages_handler fresh_world).
  right. exists ("Largest Contentful Paint", None), (serve fresh_world).
  split; reflexivity.
Defined.

End BehaviourExamples.
